(** * OpenDrop: the Young-Laplace derivative functions and the widget stack model

    A shallow embedding of two modules of the repository:

    - [opendrop/iftcalc/younglaplace/de.py]: the right-hand sides [ylderiv]
      and [dataderiv] of the Young-Laplace system of differential equations;
    - [opendrop/component/stack.py]: the class [StackModel].

    Python exceptions are values of [exn]; a call either returns or raises,
    which is the type [result].  Python floats are modelled by the real
    numbers of the Standard Library: the arithmetic is exact, and the only
    exception float arithmetic raises in this model is [ZeroDivisionError],
    raised by [/] on a zero divisor as in Python. *)

From Stdlib Require Import Reals Lra.
From stdpp Require Import base decidable option list strings.

(** ** Exceptions and results *)

Inductive exn : Set :=
| ValueError
| ZeroDivisionError
| KeyError
| UnboundLocalError.

Inductive result (A : Type) : Type :=
| Ok (a : A)
| Raise (e : exn).

Arguments Ok {A} a.
Arguments Raise {A} e.

#[global] Instance result_ret : MRet result := @Ok.

#[global] Instance result_bind : MBind result := fun A B k r =>
  match r with
  | Ok a => k a
  | Raise e => Raise e
  end.


Definition returns {A} (r : result A) : Prop :=
  match r with
  | Ok _ => True
  | Raise _ => False
  end.

(** ** opendrop/iftcalc/younglaplace/de.py *)

Section YoungLaplace.

Local Open Scope R_scope.

(** Python's [a / b] on floats: [ZeroDivisionError] when [b] is zero. *)
Definition truediv (a b : R) : result R :=
  if Req_dec_T b 0 then Raise ZeroDivisionError else Ok (a / b).

(** [x, y, phi, x_Bond, y_Bond, phi_Bond = x_vec] raises [ValueError] unless
    [x_vec] has exactly six items; [t] is not used. *)
Definition ylderiv (x_vec : list R) (t : R) (bond_number : R)
  : result (list R) :=
  match x_vec with
  | [x; y; phi; x_Bond; y_Bond; phi_Bond] =>
      let x_s := cos phi in
      let y_s := sin phi in
      q ← truediv y_s x;
      let phi_s := 2 - bond_number * y - q in
      let x_Bond_s := (- y_s) * phi_Bond in
      let y_Bond_s := x_s * phi_Bond in
      q1 ← truediv (y_s * x_Bond) (x ^ 2);
      q2 ← truediv (x_s * phi_Bond) x;
      let phi_Bond_s := q1 - q2 - y - bond_number * y_Bond in
      mret [x_s; y_s; phi_s; x_Bond_s; y_Bond_s; phi_Bond_s]
  | _ => Raise ValueError
  end.

(** [x, y, phi, vol, sur = x_vec] raises [ValueError] unless [x_vec] has
    exactly five items; [t] is not used. *)
Definition dataderiv (x_vec : list R) (t : R) (bond_number : R)
  : result (list R) :=
  match x_vec with
  | [x; y; phi; vol; sur] =>
      let x_s := cos phi in
      let y_s := sin phi in
      q ← truediv (sin phi) x;
      let phi_s := 2 - bond_number * y - q in
      let vol_s := PI * x ^ 2 * y_s in
      let sur_s := 2 * PI * x in
      mret [x_s; y_s; phi_s; vol_s; sur_s]
  | _ => Raise ValueError
  end.


End YoungLaplace.

(** ** Python dictionaries

    A [dict] keeps its items in insertion order and holds each key once; it
    is the list of its items.  Keys are compared with [==], which for a
    hashable key type is the equality of the model. *)

Section dict.

Context {K V : Type} `{EqDecision K}.

Implicit Types (k : K) (v : V) (d : list (K * V)).

Definition dict_keys d : list K := d.*1.

Definition dict_values d : list V := d.*2.

(** [k in d] *)
Definition dict_contains k d : bool := bool_decide (k ∈ dict_keys d).

(** [d[k]] *)
Definition dict_getitem k d : result V :=
  match list_find (λ kv, kv.1 = k) d with
  | Some (_, (_, v)) => Ok v
  | None => Raise KeyError
  end.

(** [d[k] = v]: a present key keeps its place, a new key goes last. *)
Fixpoint dict_setitem k v d : list (K * V) :=
  match d with
  | [] => [(k, v)]
  | (k', v') :: d' =>
      if decide (k' = k) then (k', v) :: d' else (k', v') :: dict_setitem k v d'
  end.

(** [del d[k]] *)
Definition dict_delitem k d : result (list (K * V)) :=
  if dict_contains k d then Ok (filter (λ kv, kv.1 ≠ k) d) else Raise KeyError.

End dict.

(** ** opendrop/component/stack.py: [StackModel]

    Object identity ([is]) on children is the equality of [ChildType];
    [child_eq] is the [==] of the children's class, which a class may define
    as it likes.  A key is [None] or a value of [KeyType].  Firing an event
    appends it to the log [fired]: the handlers connected to an event are
    not part of [StackModel], and are taken to leave it alone. *)

Section StackModel.

Context {KeyType ChildType : Type}.
Context `{EqDecision KeyType} `{EqDecision ChildType}.

Variable child_eq : ChildType -> ChildType -> bool.

Inductive Event : Type :=
| on_child_added (key : KeyType) (child : ChildType)
| on_child_removed (key : KeyType) (child : ChildType)
| on_changed.

Record StackModel : Type := {
  _visible_child_key : option KeyType;
  _key_to_child : list (KeyType * ChildType);
  fired : list Event;
}.

(** A method call runs on the object and returns or raises; what it did to
    the object before raising stays done. *)
Definition method (A : Type) : Type := StackModel -> result A * StackModel.

#[global] Instance method_ret : MRet method := fun A a self => (Ok a, self).

#[global] Instance method_bind : MBind method := fun A B k m self =>
  match m self with
  | (Ok a, self') => k a self'
  | (Raise e, self') => (Raise e, self')
  end.

Definition get_self : method StackModel := fun self => (Ok self, self).

Definition raise {A} (e : exn) : method A := fun self => (Raise e, self).

Definition lift {A} (r : result A) : method A := fun self => (r, self).

(** [self._visible_child_key = new_key] *)
Definition assign_visible_child_key (new_key : option KeyType) : method unit :=
  fun self =>
    (Ok tt, {| _visible_child_key := new_key;
               _key_to_child := _key_to_child self;
               fired := fired self |}).

(** The dictionary [self._key_to_child] is replaced by its updated value. *)
Definition assign_key_to_child (d : list (KeyType * ChildType)) : method unit :=
  fun self =>
    (Ok tt, {| _visible_child_key := _visible_child_key self;
               _key_to_child := d;
               fired := fired self |}).

(** [event.fire(...)] *)
Definition fire (ev : Event) : method unit :=
  fun self =>
    (Ok tt, {| _visible_child_key := _visible_child_key self;
               _key_to_child := _key_to_child self;
               fired := fired self ++ [ev] |}).

(** [StackModel()] *)
Definition StackModel_init : StackModel :=
  {| _visible_child_key := None; _key_to_child := []; fired := [] |}.

Definition _get_visible_child_key : method (option KeyType) :=
  self ← get_self; mret (_visible_child_key self).

Definition _set_visible_child_key (new_key : option KeyType) : method unit :=
  self ← get_self;
  match new_key with
  | Some k =>
      if negb (dict_contains k (_key_to_child self)) then raise ValueError
      else assign_visible_child_key new_key
  | None => assign_visible_child_key new_key
  end.

(** Modelled from the spec: the class [AccessorBindable] of
    [opendrop.utility.bindable] is not part of the sources at hand; it is
    built in [StackModel.__init__] from a getter and a setter, and is taken
    here to do what that says: [get] calls the getter, [set] calls the setter
    and then fires [on_changed]. *)
Record AccessorBindable (A : Type) : Type := {
  getter : method A;
  setter : A -> method unit;
}.

Arguments getter {A} _.
Arguments setter {A} _ _.

Definition AccessorBindable_get {A} (bn : AccessorBindable A) : method A :=
  getter bn.

Definition AccessorBindable_set {A} (bn : AccessorBindable A) (value : A)
  : method unit :=
  setter bn value ;; fire on_changed.

Definition bn_visible_child_key : AccessorBindable (option KeyType) :=
  {| getter := _get_visible_child_key; setter := _set_visible_child_key |}.

(** The property [visible_child_key] and its setter. *)
Definition visible_child_key : method (option KeyType) :=
  AccessorBindable_get bn_visible_child_key.

Definition visible_child_key_setter (new_key : option KeyType) : method unit :=
  AccessorBindable_set bn_visible_child_key new_key.

(** [child in values]: each item is tried with [is], then with [==]. *)
Definition values_contains (child : ChildType) (values : list ChildType)
  : bool :=
  existsb (λ v, bool_decide (v = child) || child_eq v child) values.

(** The loop of [add_child] that looks for [old_key]: it does not stop at
    the first item that is [child], so the last one stays. *)
Definition find_old_key (child : ChildType)
    (items : list (KeyType * ChildType)) : option KeyType :=
  foldl (λ old_key kv, if decide (kv.2 = child) then Some kv.1 else old_key)
    None items.

Definition add_child (key : option KeyType) (child : ChildType) : method unit :=
  self ← get_self;
  match key with
  | None => raise ValueError
  | Some key =>
      if dict_contains key (_key_to_child self) then raise ValueError
      else if values_contains child (dict_values (_key_to_child self)) then
        match find_old_key child (_key_to_child self) with
        | Some old_key => raise ValueError
        | None => raise UnboundLocalError
        end
      else
        assign_key_to_child (dict_setitem key child (_key_to_child self)) ;;
        fire (on_child_added key child)
  end.

(** The [for] loop of [remove_child] over the items: [Some k] when it left
    by [break] at key [k], [None] when it ran to its [else]. *)
Fixpoint remove_child_loop (child : ChildType)
    (items : list (KeyType * ChildType)) : method (option KeyType) :=
  match items with
  | [] => mret None
  | (k, v) :: items' =>
      if decide (v = child) then
        visible ← visible_child_key;
        (if decide (visible = Some k) then visible_child_key_setter None
         else mret tt) ;;
        self ← get_self;
        d ← lift (dict_delitem k (_key_to_child self));
        assign_key_to_child d ;;
        mret (Some k)
      else remove_child_loop child items'
  end.

Definition remove_child (child : ChildType) : method unit :=
  self ← get_self;
  left_at ← remove_child_loop child (_key_to_child self);
  match left_at with
  | None => raise ValueError
  | Some k => fire (on_child_removed k child)
  end.

Fixpoint for_each {A} (body : A -> method unit) (l : list A) : method unit :=
  match l with
  | [] => mret tt
  | a :: l' => body a ;; for_each body l'
  end.

Definition clear : method unit :=
  self ← get_self;
  for_each remove_child (dict_values (_key_to_child self)).

Definition get_child_from_key (key : option KeyType)
  : method (option ChildType) :=
  match key with
  | None => mret None
  | Some k =>
      self ← get_self;
      match dict_getitem k (_key_to_child self) with
      | Ok child => mret (Some child)
      | Raise KeyError => raise ValueError
      | Raise e => raise e
      end
  end.

Definition children : method (list ChildType) :=
  self ← get_self; mret (dict_values (_key_to_child self)).

(** The calls that change a [StackModel]. *)
Inductive Call : Type :=
| call_add_child (key : option KeyType) (child : ChildType)
| call_remove_child (child : ChildType)
| call_clear
| call_visible_child_key_setter (new_key : option KeyType).

Definition run (c : Call) : method unit :=
  match c with
  | call_add_child key child => add_child key child
  | call_remove_child child => remove_child child
  | call_clear => clear
  | call_visible_child_key_setter new_key => visible_child_key_setter new_key
  end.

(** [self.visible_child_key] is [None] or a key of [self._key_to_child]. *)
Definition visible_child_key_known (self : StackModel) : Prop :=
  match _visible_child_key self with
  | None => True
  | Some k => dict_contains k (_key_to_child self) = true
  end.

End StackModel.

Arguments Event : clear implicits.
Arguments StackModel : clear implicits.
Arguments method : clear implicits.
Arguments Call : clear implicits.

(** A sequence of calls on a stack, each run whether or not the one before
    it raised (the caller caught the exception). *)
Definition run_calls {KeyType ChildType : Type}
    `{EqDecision KeyType} `{EqDecision ChildType}
    (child_eq : ChildType -> ChildType -> bool)
    (calls : list (Call KeyType ChildType))
    (self : StackModel KeyType ChildType) : StackModel KeyType ChildType :=
  foldl (λ self c, (run child_eq c self).2) self calls.


(** What a listener holds that starts with no child, adds the child of each
    [on_child_added] at the end and takes out the child of each
    [on_child_removed], as the handlers of [StackPresenter] do on the
    view. *)
Definition children_of_events {KeyType ChildType : Type}
    `{EqDecision ChildType}
    (log : list (Event KeyType ChildType)) : list ChildType :=
  foldl (λ held ev,
           match ev with
           | on_child_added _ child => held ++ [child]
           | on_child_removed _ child => filter (λ v, v ≠ child) held
           | on_changed => held
           end) [] log.

(** ** opendrop/utility/misc.py: [get_classes_in_modules]

    What the function reads of a module is its [__name__] and, for each name
    of [dir(m)] in order, the attribute under that name; of an attribute,
    whether it is a class ([inspect.isclass]), and of a class its
    [__module__] and [issubclass].  The argument [m] is a module or an
    iterable of such arguments. *)

Section misc.

Context {Class : Type}.

Variable issubclass : Class -> Class -> bool.

Variable __module__ : Class -> string.

Inductive Attr : Type :=
| a_class (c : Class)
| a_other.

Record ModuleType : Type := {
  __name__ : string;
  attrs : list (string * Attr);
}.

#[local] Unset Elimination Schemes.

Inductive Modules : Type :=
| a_module (m : ModuleType)
| an_iterable (vs : list Modules).

#[local] Set Elimination Schemes.

Fixpoint get_classes_in_modules (m : Modules) (cls : Class) : list Class :=
  match m with
  | an_iterable vs =>
      (fix loop (vs : list Modules) (clses : list Class) : list Class :=
         match vs with
         | [] => clses
         | v :: vs' => loop vs' (clses ++ get_classes_in_modules v cls)
         end) vs []
  | a_module m =>
      foldl (λ clses name_attr,
               match name_attr.2 with
               | a_class attr =>
                   if issubclass attr cls
                      && bool_decide (__module__ attr = __name__ m)
                   then clses ++ [attr] else clses
               | a_other => clses
               end) [] (attrs m)
  end.

(** The modules of an argument, in the order the loops visit them. *)
Fixpoint modules_of (m : Modules) : list ModuleType :=
  match m with
  | an_iterable vs =>
      (fix loop (vs : list Modules) : list ModuleType :=
         match vs with
         | [] => []
         | v :: vs' => modules_of v ++ loop vs'
         end) vs
  | a_module m => [m]
  end.

End misc.

Arguments Attr : clear implicits.
Arguments ModuleType : clear implicits.
Arguments Modules : clear implicits.

(** * Properties of the Young-Laplace derivative functions *)

Section YoungLaplaceFacts.

Local Open Scope R_scope.

























(** C8: neither function uses its argument [t]: for every state and Bond
    number the result is the same for any two values of [t]. *)
Theorem deriv_autonomous (x_vec : list R) (bond_number t1 t2 : R) :
  ylderiv x_vec t1 bond_number = ylderiv x_vec t2 bond_number
  /\ dataderiv x_vec t1 bond_number = dataderiv x_vec t2 bond_number.
Proof. split; reflexivity. Qed.

End YoungLaplaceFacts.

(** * Properties of the stack model *)

Section dict_facts.

Context {K V : Type} `{EqDecision K}.

Implicit Types (k : K) (v : V) (d : list (K * V)).

Lemma dict_contains_true k d : dict_contains k d = true <-> k ∈ dict_keys d.
Proof. unfold dict_contains. apply bool_decide_eq_true. Qed.

Lemma dict_contains_false k d : dict_contains k d = false <-> k ∉ dict_keys d.
Proof. unfold dict_contains. apply bool_decide_eq_false. Qed.

Lemma dict_setitem_new k v d :
  k ∉ dict_keys d -> dict_setitem k v d = d ++ [(k, v)].
Proof.
  unfold dict_keys. induction d as [| [k' v'] d IH]; intros Hk; [reflexivity |].
  cbn in *. apply not_elem_of_cons in Hk as [Hne Hk].
  destruct (decide (k' = k)) as [-> | _]; [contradiction |].
  now rewrite IH.
Qed.


Lemma dict_getitem_app_new k k' v d :
  k ∉ dict_keys d ->
  dict_getitem k' (d ++ [(k, v)]) =
  if decide (k' = k) then Ok v else dict_getitem k' d.
Proof.
  unfold dict_keys, dict_getitem.
  induction d as [| [k1 v1] d IH]; intros Hk; cbn.
  - destruct (decide (k = k')) as [-> | Hne].
    + now rewrite decide_True.
    + now rewrite decide_False by congruence.
  - cbn in Hk. apply not_elem_of_cons in Hk as [Hne Hk].
    destruct (decide (k1 = k')) as [-> | Hne'].
    + now rewrite decide_False by congruence.
    + specialize (IH Hk).
      destruct (list_find _ (d ++ _)) as [[? [? ?]] |],
               (list_find _ d) as [[? [? ?]] |]; cbn;
        destruct (decide (k' = k)); congruence.
Qed.

End dict_facts.

Section StackModelFacts.

Context {KeyType ChildType : Type}.
Context `{EqDecision KeyType} `{EqDecision ChildType}.

Variable child_eq : ChildType -> ChildType -> bool.

Implicit Types (self : StackModel KeyType ChildType).
Implicit Types (k : KeyType) (key : option KeyType) (child : ChildType).
Implicit Types (items : list (KeyType * ChildType)).

Lemma find_old_key_snoc child items k v :
  find_old_key child (items ++ [(k, v)]) =
  if decide (v = child) then Some k else find_old_key child items.
Proof. unfold find_old_key. rewrite foldl_app. reflexivity. Qed.

Lemma find_old_key_is_Some child items :
  is_Some (find_old_key child items) <-> child ∈ dict_values items.
Proof.
  unfold dict_values.
  induction items as [| [k v] items IH] using rev_ind.
  - cbn. split; [intros [? ?]; discriminate | intros Hin; inversion Hin].
  - rewrite find_old_key_snoc, fmap_app, elem_of_app. cbn.
    destruct (decide (v = child)) as [-> | Hne].
    + split; [intros _; right; apply list_elem_of_here | intros _; eauto].
    + rewrite IH. split; [tauto |]. intros [Hin | Hin]; [exact Hin |].
      apply list_elem_of_singleton in Hin. congruence.
Qed.

Lemma values_contains_is child (values : list ChildType) :
  child ∈ values -> values_contains child_eq child values = true.
Proof.
  unfold values_contains. induction values as [| v values IH]; intros Hin.
  - inversion Hin.
  - cbn. apply elem_of_cons in Hin as [<- | Hin].
    + now rewrite bool_decide_eq_true_2.
    + rewrite IH by exact Hin. apply orb_true_r.
Qed.

Lemma values_contains_true child (values : list ChildType) :
  values_contains child_eq child values = true <->
  exists v, v ∈ values /\ (v = child \/ child_eq v child = true).
Proof.
  unfold values_contains. induction values as [| v values IH]; cbn.
  - split; [discriminate | intros (v & Hin & _); inversion Hin].
  - rewrite orb_true_iff, IH, orb_true_iff, bool_decide_eq_true. split.
    + intros [Hv | (v' & Hin & Hv')].
      * exists v. split; [apply list_elem_of_here | exact Hv].
      * exists v'. split; [apply list_elem_of_further, Hin | exact Hv'].
    + intros (v' & Hin & Hv'). apply elem_of_cons in Hin as [-> | Hin].
      * left. exact Hv'.
      * right. eauto.
Qed.

(** What [add_child] does, case by case. *)
Lemma add_child_outcome key child self :
  add_child child_eq key child self =
  match key with
  | None => (Raise ValueError, self)
  | Some k =>
      if dict_contains k (_key_to_child self) then (Raise ValueError, self)
      else if bool_decide (child ∈ dict_values (_key_to_child self))
      then (Raise ValueError, self)
      else if values_contains child_eq child (dict_values (_key_to_child self))
      then (Raise UnboundLocalError, self)
      else (Ok tt,
            {| _visible_child_key := _visible_child_key self;
               _key_to_child := _key_to_child self ++ [(k, child)];
               fired := fired self ++ [on_child_added k child] |})
  end.
Proof.
  unfold add_child, mbind, method_bind, get_self, raise. destruct key as [k |];
    [| reflexivity].
  destruct (dict_contains k (_key_to_child self)) eqn:Hk; [reflexivity |].
  apply dict_contains_false in Hk.
  destruct (bool_decide (child ∈ dict_values (_key_to_child self))) eqn:Hin.
  - apply bool_decide_eq_true in Hin. rewrite values_contains_is by exact Hin.
    apply find_old_key_is_Some in Hin as [old_key ->]. reflexivity.
  - apply bool_decide_eq_false in Hin.
    destruct (values_contains _ _ _); cbn.
    + destruct (find_old_key child (_key_to_child self)) as [old_key |] eqn:Hold;
        [| reflexivity].
      destruct Hin. apply find_old_key_is_Some. eauto.
    + rewrite dict_setitem_new by exact Hk. reflexivity.
Qed.

(** What the setter of [visible_child_key] does. *)
Lemma visible_child_key_setter_outcome key self :
  visible_child_key_setter key self =
  if from_option (λ k, dict_contains k (_key_to_child self)) true key
  then (Ok tt,
        {| _visible_child_key := key;
           _key_to_child := _key_to_child self;
           fired := fired self ++ [on_changed] |})
  else (Raise ValueError, self).
Proof.
  unfold visible_child_key_setter, AccessorBindable_set, bn_visible_child_key,
    setter, _set_visible_child_key, mbind, method_bind, get_self, raise.
  destruct key as [k |]; cbn; [| reflexivity].
  destruct (dict_contains k (_key_to_child self)); reflexivity.
Qed.

(** The loop of [remove_child], run on a part [items] of the dictionary:
    it leaves at the first item that is [child]. *)
Lemma remove_child_loop_outcome child items self :
  items ⊆ _key_to_child self ->
  remove_child_loop child items self =
  match list_find (λ kv, kv.2 = child) items with
  | None => (Ok None, self)
  | Some (_, (k, _)) =>
      (Ok (Some k),
       {| _visible_child_key :=
            if decide (_visible_child_key self = Some k) then None
            else _visible_child_key self;
          _key_to_child := filter (λ kv, kv.1 ≠ k) (_key_to_child self);
          fired :=
            fired self ++
            (if decide (_visible_child_key self = Some k) then [on_changed]
             else []) |})
  end.
Proof.
  induction items as [| [k v] items IH]; intros Hsub; [reflexivity |].
  cbn [remove_child_loop list_find]. cbn [snd].
  destruct (decide (v = child)) as [-> | Hne].
  - assert (Hk : dict_contains k (_key_to_child self) = true).
    { apply dict_contains_true. unfold dict_keys.
      apply (list_elem_of_fmap_2 fst _ (k, child)), Hsub, list_elem_of_here. }
    destruct self as [visible d log]. cbn in Hk |- *.
    unfold visible_child_key, AccessorBindable_get, bn_visible_child_key,
      getter, _get_visible_child_key, mbind, method_bind, get_self, mret,
      method_ret. cbn.
    destruct (decide (visible = Some k)) as [-> | Hv].
    + unfold _set_visible_child_key, mbind, method_bind, get_self. cbn.
      unfold dict_delitem. rewrite Hk. reflexivity.
    + cbn. unfold dict_delitem. rewrite Hk, app_nil_r. reflexivity.
  - rewrite IH.
    + destruct (list_find _ items) as [[i [k' v']] |]; reflexivity.
    + intros kv Hin. apply Hsub, list_elem_of_further, Hin.
Qed.

(** What [remove_child] does, case by case. *)
Lemma remove_child_outcome child self :
  remove_child child self =
  match list_find (λ kv, kv.2 = child) (_key_to_child self) with
  | None => (Raise ValueError, self)
  | Some (_, (k, _)) =>
      (Ok tt,
       {| _visible_child_key :=
            if decide (_visible_child_key self = Some k) then None
            else _visible_child_key self;
          _key_to_child := filter (λ kv, kv.1 ≠ k) (_key_to_child self);
          fired :=
            fired self ++
            (if decide (_visible_child_key self = Some k) then [on_changed]
             else []) ++ [on_child_removed k child] |})
  end.
Proof.
  unfold remove_child, mbind, method_bind, get_self.
  rewrite remove_child_loop_outcome by reflexivity.
  destruct (list_find _ _) as [[i [k v]] |]; [| reflexivity].
  unfold fire. cbn [fired _visible_child_key _key_to_child].
  rewrite <- app_assoc. reflexivity.
Qed.

(** [add_child] raises [UnboundLocalError], from reading [old_key] before
    any assignment, exactly when the key is new and some value of the mapping
    is [==] to the child while none is the child itself. *)
Lemma add_child_raises_UnboundLocalError_iff key child self :
  (add_child child_eq key child self).1 = Raise UnboundLocalError <->
  exists k,
    key = Some k
    /\ (k ∉ dict_keys (_key_to_child self))
    /\ (child ∉ dict_values (_key_to_child self))
    /\ exists v, v ∈ dict_values (_key_to_child self) /\ child_eq v child = true.
Proof.
  rewrite add_child_outcome. destruct key as [k |]; cbn.
  2: { split; [discriminate | intros (k & [=] & _)]. }
  destruct (dict_contains k (_key_to_child self)) eqn:Hk; cbn.
  { apply dict_contains_true in Hk. split; [discriminate |].
    intros (k' & [= <-] & Hnot & _). contradiction. }
  apply dict_contains_false in Hk.
  destruct (bool_decide (child ∈ dict_values (_key_to_child self))) eqn:Hin; cbn.
  { apply bool_decide_eq_true in Hin. split; [discriminate |].
    intros (_ & _ & _ & Hnot & _). contradiction. }
  apply bool_decide_eq_false in Hin.
  destruct (values_contains _ _ _) eqn:Hc; cbn.
  - split; [intros _ | reflexivity]. exists k.
    apply values_contains_true in Hc as (v & Hv & [-> | Heq]);
      [contradiction | eauto 6].
  - split; [discriminate |]. intros (_ & _ & _ & _ & v & Hv & Heq).
    assert (Hc' : values_contains child_eq child
                    (dict_values (_key_to_child self)) = true)
      by (apply values_contains_true; eauto).
    congruence.
Qed.

Lemma filter_keys_NoDup (P : KeyType * ChildType -> Prop)
    `{forall kv, Decision (P kv)} items :
  NoDup (dict_keys items) -> NoDup (dict_keys (filter P items)).
Proof.
  unfold dict_keys. induction items as [| [k v] items IH]; [intros; constructor |].
  rewrite fmap_cons, NoDup_cons. intros [Hk Hnd]. rewrite filter_cons.
  destruct (decide (P (k, v))); [| apply IH, Hnd].
  rewrite fmap_cons, NoDup_cons. split; [| apply IH, Hnd].
  intros Hin. apply Hk. apply list_elem_of_fmap in Hin as (kv & -> & Hin).
  apply list_elem_of_filter in Hin as [_ Hin].
  apply list_elem_of_fmap. eauto.
Qed.

Lemma for_each_preserves {A} (P : StackModel KeyType ChildType -> Prop)
    (body : A -> method KeyType ChildType ()) (l : list A) :
  (forall a self, P self -> P (body a self).2) ->
  forall self, P self -> P (for_each body l self).2.
Proof.
  intros Hbody. induction l as [| a l IH]; intros self Hinv; [exact Hinv |].
  cbn [for_each]. unfold mbind, method_bind.
  specialize (Hbody a self Hinv).
  destruct (body a self) as [[[] | e] self']; [apply IH |]; exact Hbody.
Qed.

(** The list of items stays a dictionary: no call makes a key appear
    twice. *)
Lemma run_keys_NoDup (c : Call KeyType ChildType) self :
  NoDup (dict_keys (_key_to_child self)) ->
  NoDup (dict_keys (_key_to_child (run child_eq c self).2)).
Proof.
  assert (Hremove : forall child self,
            NoDup (dict_keys (_key_to_child self)) ->
            NoDup (dict_keys (_key_to_child (remove_child child self).2))).
  { intros child s Hnd. rewrite remove_child_outcome.
    destruct (list_find _ _) as [[i [k v]] |]; [| exact Hnd].
    cbn. apply filter_keys_NoDup, Hnd. }
  intros Hnd. destruct c as [key child | child | | key]; cbn [run].
  - rewrite add_child_outcome. destruct key as [k |]; [| exact Hnd].
    destruct (dict_contains k (_key_to_child self)) eqn:Hk; [exact Hnd |].
    repeat (match goal with |- context [if ?b then _ else _] => destruct b end;
            [exact Hnd |]).
    cbn. unfold dict_keys in *. rewrite fmap_app. apply NoDup_app.
    split; [exact Hnd |]. split; [| apply NoDup_singleton].
    intros k' Hin Hin'. apply list_elem_of_singleton in Hin' as ->.
    apply dict_contains_false in Hk. contradiction.
  - apply Hremove, Hnd.
  - unfold clear, mbind, method_bind, get_self.
    apply (for_each_preserves
             (λ s, NoDup (dict_keys (_key_to_child s)))); assumption.
  - rewrite visible_child_key_setter_outcome.
    destruct (from_option _ _ _); exact Hnd.
Qed.

Lemma filter_other_keys k items :
  k ∉ dict_keys items -> filter (λ kv, kv.1 ≠ k) items = items.
Proof.
  unfold dict_keys. induction items as [| [k' v'] items IH]; [reflexivity |].
  rewrite fmap_cons, not_elem_of_cons. cbn [fst]. intros [Hne Hk].
  rewrite filter_cons_True by (cbn; congruence). now rewrite IH.
Qed.

(** [clear] removes every item and returns; [visible_child_key] ends at
    [None] if it was a key of the mapping. *)
Lemma clear_outcome self :
  NoDup (dict_keys (_key_to_child self)) ->
  (clear self).1 = Ok tt
  /\ _key_to_child (clear self).2 = []
  /\ _visible_child_key (clear self).2 =
     match _visible_child_key self with
     | Some k =>
         if dict_contains k (_key_to_child self) then None else Some k
     | None => None
     end.
Proof.
  unfold clear, mbind, method_bind, get_self.
  destruct self as [visible d log]. cbn [_key_to_child _visible_child_key].
  revert visible log. unfold dict_keys, dict_values.
  induction d as [| [k v] d IH]; intros visible log Hkeys.
  - cbn. destruct visible; auto.
  - rewrite fmap_cons, NoDup_cons in Hkeys. destruct Hkeys as [Hk Hkeys].
    rewrite fmap_cons. cbn [for_each snd]. unfold mbind, method_bind.
    rewrite remove_child_outcome. cbn [_key_to_child _visible_child_key fired].
    cbn [list_find snd]. rewrite decide_True by reflexivity.
    rewrite filter_cons_False by (cbn; tauto).
    rewrite filter_other_keys by exact Hk.
    destruct (IH (if decide (visible = Some k) then None else visible)
                (log ++ (if decide (visible = Some k) then [on_changed] else [])
                 ++ [on_child_removed k v]) Hkeys)
      as (Hret & Hd & Hvis).
    split; [exact Hret |]. split; [exact Hd |]. rewrite Hvis.
    destruct (decide (visible = Some k)) as [-> | Hne].
    + unfold dict_contains, dict_keys. rewrite fmap_cons.
      rewrite bool_decide_eq_true_2 by apply list_elem_of_here. reflexivity.
    + destruct visible as [k' |]; [| reflexivity].
      unfold dict_contains, dict_keys. rewrite fmap_cons.
      destruct (bool_decide (k' ∈ d.*1)) eqn:Hin.
      * apply bool_decide_eq_true in Hin.
        rewrite bool_decide_eq_true_2 by (apply list_elem_of_further, Hin).
        reflexivity.
      * apply bool_decide_eq_false in Hin. rewrite bool_decide_eq_false_2;
          [reflexivity |].
        intros Hin'. apply elem_of_cons in Hin' as [-> | Hin'];
          [now apply Hne | contradiction].
Qed.








End StackModelFacts.

(** A child that is [==] to a stored child without being that object. *)
Example add_child_equal_other_object :
  add_child (λ _ _, true) (Some 2) 11
    {| _visible_child_key := None; _key_to_child := [(1, 10)]; fired := [] |} =
  (Raise UnboundLocalError,
   {| _visible_child_key := None; _key_to_child := [(1, 10)]; fired := [] |}).
Proof. reflexivity. Qed.

Example remove_visible_child :
  remove_child 11
    {| _visible_child_key := Some 2;
       _key_to_child := [(1, 10); (2, 11)];
       fired := [] |} =
  (Ok tt,
   {| _visible_child_key := None;
      _key_to_child := [(1, 10)];
      fired := [on_changed; on_child_removed 2 11] |}).
Proof. reflexivity. Qed.



(** * Further properties of the derivative functions *)

Section YoungLaplaceShape.

Local Open Scope R_scope.








End YoungLaplaceShape.

(** * Further properties of the stack model *)

Section dict_lookup_facts.

Context {K V : Type} `{EqDecision K}.

Implicit Types (k : K) (v : V) (d : list (K * V)).

Lemma NoDup_fmap_same {A B} (f : A -> B) (l : list A) (x y : A) :
  NoDup (f <$> l) -> x ∈ l -> y ∈ l -> f x = f y -> x = y.
Proof.
  induction l as [| a l IH]; [intros _ Hx; inversion Hx |].
  rewrite fmap_cons, NoDup_cons, !elem_of_cons.
  intros [Ha Hnd] [-> | Hx] [-> | Hy] Heq; [reflexivity | | | now apply IH].
  - destruct Ha. rewrite Heq. now apply list_elem_of_fmap_2.
  - destruct Ha. rewrite <- Heq. now apply list_elem_of_fmap_2.
Qed.

Lemma dict_getitem_cases k d :
  ((k ∉ dict_keys d) /\ dict_getitem k d = Raise KeyError)
  \/ (exists v, (k, v) ∈ d /\ dict_getitem k d = Ok v).
Proof.
  unfold dict_getitem, dict_keys.
  destruct (list_find (λ kv, kv.1 = k) d) as [[i [k' v]] |] eqn:Hfind.
  - right. apply list_find_Some in Hfind as (Hi & Hk & _). cbn in Hk. subst k'.
    exists v. split; [| reflexivity]. eapply list_elem_of_lookup_2, Hi.
  - left. split; [| reflexivity]. apply list_find_None in Hfind.
    intros Hin. apply list_elem_of_fmap in Hin as ([k' v] & -> & Hin).
    rewrite Forall_forall in Hfind. now apply (Hfind (k', v)).
Qed.

Lemma dict_getitem_unique k v d :
  NoDup (dict_keys d) -> (k, v) ∈ d -> dict_getitem k d = Ok v.
Proof.
  intros Hnd Hin. destruct (dict_getitem_cases k d) as [[Hk _] | (v' & Hin' & ->)].
  - destruct Hk. unfold dict_keys. apply list_elem_of_fmap. exists (k, v). auto.
  - f_equal.
    now injection (NoDup_fmap_same fst d (k, v') (k, v) Hnd Hin' Hin eq_refl).
Qed.

Lemma dict_getitem_delitem_other k k' d :
  k' ≠ k ->
  dict_getitem k' (filter (λ kv, kv.1 ≠ k) d) = dict_getitem k' d.
Proof.
  intros Hne. unfold dict_getitem.
  induction d as [| [k1 v1] d IH]; [reflexivity |].
  destruct (decide (k1 = k)) as [-> | Hk1].
  - rewrite filter_cons_False by (cbn; tauto). cbn [list_find fst].
    rewrite decide_False by congruence. rewrite IH.
    destruct (list_find _ d) as [[? [? ?]] |]; reflexivity.
  - rewrite filter_cons_True by (cbn; exact Hk1). cbn [list_find fst].
    destruct (decide (k1 = k')); [reflexivity |].
    destruct (list_find _ (filter _ d)) as [[? [? ?]] |],
             (list_find _ d) as [[? [? ?]] |]; cbn in *; congruence.
Qed.

End dict_lookup_facts.

Section StackModelUse.

Context {KeyType ChildType : Type}.
Context `{EqDecision KeyType} `{EqDecision ChildType}.

Variable child_eq : ChildType -> ChildType -> bool.

Implicit Types (self : StackModel KeyType ChildType).
Implicit Types (k : KeyType) (key : option KeyType) (child : ChildType).
Implicit Types (items : list (KeyType * ChildType)).

#[local] Arguments get_child_from_key : simpl never.

Lemma get_child_from_key_outcome key self :
  get_child_from_key key self =
  match key with
  | None => (Ok None, self)
  | Some k =>
      match dict_getitem k (_key_to_child self) with
      | Ok child => (Ok (Some child), self)
      | Raise _ => (Raise ValueError, self)
      end
  end.
Proof.
  destruct key as [k |]; [| reflexivity].
  unfold get_child_from_key, mbind, method_bind, get_self.
  destruct (dict_getitem_cases k (_key_to_child self))
    as [[_ ->] | (v & _ & ->)]; reflexivity.
Qed.


(** X5: [get_child_from_key] never changes the object; it returns [None]
    for the key [None], raises [ValueError] exactly for a key that is not
    [None] and not in the mapping, never lets a [KeyError] out, and
    otherwise returns a child stored under the key, which is the child
    stored under it when the keys are distinct. *)
Theorem get_child_from_key_lookup key self :
  let d := _key_to_child self in
  let out := get_child_from_key key self in
  out.2 = self
  /\ (out.1 = Ok None <-> key = None)
  /\ (out.1 = Raise ValueError <->
      exists k, key = Some k /\ k ∉ dict_keys d)
  /\ (forall e, out.1 = Raise e -> e = ValueError)
  /\ (forall child,
        out.1 = Ok (Some child) -> exists k, key = Some k /\ (k, child) ∈ d)
  /\ (forall k child,
        NoDup (dict_keys d) -> key = Some k -> (k, child) ∈ d ->
        out.1 = Ok (Some child)).
Proof.
  intros d out. subst d out. rewrite get_child_from_key_outcome.
  destruct key as [k |].
  - destruct (dict_getitem_cases k (_key_to_child self))
      as [[Hk Hget] | (v & Hin & Hget)]; rewrite Hget; cbn.
    + split; [reflexivity |]. split; [split; discriminate |].
      split; [split; [eauto | reflexivity] |].
      split; [intros e [= <-]; reflexivity |].
      split; [discriminate |]. intros k' child Hnd [= <-] Hin.
      destruct Hk. unfold dict_keys.
      apply (list_elem_of_fmap_2 fst _ (k, child)), Hin.
    + split; [reflexivity |]. split; [split; discriminate |].
      split; [split; [discriminate |] |].
      { intros (k' & [= <-] & Hk). destruct Hk. unfold dict_keys.
        apply (list_elem_of_fmap_2 fst _ (k, v)), Hin. }
      split; [discriminate |].
      split; [intros child [= <-]; eauto |].
      intros k' child Hnd [= <-] Hin'.
      rewrite (dict_getitem_unique k child _ Hnd Hin') in Hget.
      congruence.
  - cbn. split; [reflexivity |]. split; [tauto |].
    split; [split; [discriminate | intros (k & [=] & _)] |].
    split; [discriminate |]. split; [discriminate |].
    intros k child _ [=].
Qed.

(** A call of [add_child] that returns: the key was new, the child is in
    no item, and the item has gone last. *)
Lemma add_child_returns key child self :
  returns (add_child child_eq key child self).1 ->
  exists k,
    key = Some k
    /\ (k ∉ dict_keys (_key_to_child self))
    /\ (child ∉ dict_values (_key_to_child self))
    /\ (add_child child_eq key child self).2 =
       {| _visible_child_key := _visible_child_key self;
          _key_to_child := _key_to_child self ++ [(k, child)];
          fired := fired self ++ [on_child_added k child] |}.
Proof.
  rewrite add_child_outcome. destruct key as [k |]; [| intros []].
  destruct (dict_contains k (_key_to_child self)) eqn:Hk; [intros [] |].
  destruct (bool_decide (child ∈ dict_values (_key_to_child self))) eqn:Hin;
    [intros [] |].
  destruct (values_contains _ _ _); [intros [] |]. intros _.
  apply dict_contains_false in Hk. apply bool_decide_eq_false in Hin.
  exists k. auto.
Qed.

(** X6: after a call of [add_child] that returns, [get_child_from_key] gives
    the new child for the new key and what it gave before for any other key,
    [children] is the former list with the child added last, and exactly one
    event was fired, [on_child_added] for this key and child. *)
Theorem add_child_then_lookup key child self :
  returns (add_child child_eq key child self).1 ->
  let self' := (add_child child_eq key child self).2 in
  (get_child_from_key key self').1 = Ok (Some child)
  /\ (forall key',
        key' ≠ key ->
        (get_child_from_key key' self').1 = (get_child_from_key key' self).1)
  /\ (children self').1 = Ok (dict_values (_key_to_child self) ++ [child])
  /\ exists k, key = Some k
               /\ fired self' = fired self ++ [on_child_added k child].
Proof.
  intros Hret self'. subst self'.
  destruct (add_child_returns key child self Hret) as (k & -> & Hk & _ & ->).
  split; [| split; [| split]].
  - rewrite get_child_from_key_outcome. cbn.
    rewrite dict_getitem_app_new by exact Hk. now rewrite decide_True.
  - intros key' Hne. rewrite !get_child_from_key_outcome.
    destruct key' as [k' |]; [| reflexivity]. cbn.
    rewrite dict_getitem_app_new by exact Hk.
    rewrite decide_False by congruence.
    destruct (dict_getitem k' (_key_to_child self)); reflexivity.
  - unfold children, mbind, method_bind, get_self, mret, method_ret.
    cbn [fst _key_to_child]. unfold dict_values. now rewrite fmap_app.
  - exists k. split; reflexivity.
Qed.

(** X7: on a stack whose [visible_child_key] is [None] or a key of the
    mapping, removing a child just added undoes the addition: [remove_child]
    returns, and the mapping and [visible_child_key] are what they were
    before [add_child]. *)
Theorem add_child_then_remove_child key child self :
  visible_child_key_known self ->
  returns (add_child child_eq key child self).1 ->
  let out := remove_child child (add_child child_eq key child self).2 in
  out.1 = Ok tt
  /\ _key_to_child out.2 = _key_to_child self
  /\ _visible_child_key out.2 = _visible_child_key self.
Proof.
  intros Hinv Hret out. subst out.
  destruct (add_child_returns key child self Hret)
    as (k & -> & Hk & Hchild & ->).
  rewrite remove_child_outcome. cbn [_key_to_child _visible_child_key fired].
  assert (Hfind : list_find (λ kv : KeyType * ChildType, kv.2 = child)
                    (_key_to_child self ++ [(k, child)]) =
                  Some (length (_key_to_child self), (k, child))).
  { apply list_find_Some. split; [| split; [reflexivity |]].
    - rewrite lookup_app_r by reflexivity. now rewrite Nat.sub_diag.
    - intros j [k' v'] Hj Hlt Hv. cbn in Hv. subst v'.
      rewrite lookup_app_l in Hj by exact Hlt.
      apply Hchild. unfold dict_values.
      apply (list_elem_of_fmap_2 snd _ (k', child)).
      eapply list_elem_of_lookup_2, Hj. }
  rewrite Hfind. cbn.
  assert (Hvis : _visible_child_key self ≠ Some k).
  { intros Hvis. unfold visible_child_key_known in Hinv. rewrite Hvis in Hinv.
    apply dict_contains_true in Hinv. contradiction. }
  rewrite decide_False by exact Hvis.
  split; [reflexivity |]. split; [| reflexivity].
  rewrite filter_app, filter_other_keys by exact Hk.
  rewrite filter_cons_False by (cbn; tauto). apply app_nil_r.
Qed.

(** X8: on an assignment to [visible_child_key] that returns, the getter
    then gives the assigned key, [get_child_from_key] of it returns, the
    mapping is untouched and exactly one event, [on_changed], was fired; an
    assignment that raises leaves the object as it was. *)
Theorem visible_child_key_set_then_get key self :
  let out := visible_child_key_setter key self in
  (returns out.1 ->
   (visible_child_key out.2).1 = Ok key
   /\ returns (get_child_from_key key out.2).1
   /\ _key_to_child out.2 = _key_to_child self
   /\ fired out.2 = fired self ++ [on_changed])
  /\ (~ returns out.1 -> out.2 = self).
Proof.
  intros out. subst out. rewrite visible_child_key_setter_outcome.
  destruct key as [k |]; cbn.
  - destruct (dict_contains k (_key_to_child self)) eqn:Hk; cbn.
    + split; [intros _ | intros Hnot; now destruct Hnot].
      split; [reflexivity |]. split; [| split; reflexivity].
      rewrite get_child_from_key_outcome. cbn.
      apply dict_contains_true in Hk.
      destruct (dict_getitem_cases k (_key_to_child self))
        as [[Hnot _] | (v & _ & ->)]; [contradiction | exact I].
    + split; [intros [] | reflexivity].
  - split; [intros _ | intros Hnot; now destruct Hnot].
    split; [reflexivity |]. split; [exact I |]. split; reflexivity.
Qed.

Lemma fmap_filter_agree {A B} (f : A -> B) (P : A -> Prop) (Q : B -> Prop)
    `{forall x, Decision (P x)} `{forall y, Decision (Q y)} (l : list A) :
  (forall x, x ∈ l -> P x <-> Q (f x)) ->
  f <$> filter P l = filter Q (f <$> l).
Proof.
  induction l as [| a l IH]; intros Hagree; [reflexivity |].
  rewrite fmap_cons, !filter_cons.
  assert (Ha : P a <-> Q (f a)) by apply Hagree, list_elem_of_here.
  assert (IH' : f <$> filter P l = filter Q (f <$> l)).
  { apply IH. intros x Hx. apply Hagree, list_elem_of_further, Hx. }
  destruct (decide (P a)), (decide (Q (f a))); try tauto.
  now rewrite fmap_cons, IH'.
Qed.

Lemma filter_fmap_NoDup {A B} (f : A -> B) (P : A -> Prop)
    `{forall x, Decision (P x)} (l : list A) :
  NoDup (f <$> l) -> NoDup (f <$> filter P l).
Proof.
  induction l as [| a l IH]; [intros; constructor |].
  rewrite fmap_cons, NoDup_cons. intros [Ha Hnd]. rewrite filter_cons.
  destruct (decide (P a)); [| apply IH, Hnd].
  rewrite fmap_cons, NoDup_cons. split; [| apply IH, Hnd].
  intros Hin. apply Ha. apply list_elem_of_fmap in Hin as (x & -> & Hin).
  apply list_elem_of_filter in Hin as [_ Hin]. now apply list_elem_of_fmap_2.
Qed.

(** X9: when the keys and the children of the mapping are distinct, a call
    of [remove_child] that returns takes exactly that child out of
    [children] and keeps the others in their order; [get_child_from_key]
    then raises [ValueError] for the removed key and gives what it gave
    before for any other key. *)
Theorem remove_child_then_lookup child self :
  NoDup (dict_keys (_key_to_child self)) ->
  NoDup (dict_values (_key_to_child self)) ->
  returns (remove_child child self).1 ->
  let self' := (remove_child child self).2 in
  (children self').1 =
  Ok (filter (λ v, v ≠ child) (dict_values (_key_to_child self)))
  /\ exists k,
       (get_child_from_key (Some k) self).1 = Ok (Some child)
       /\ (get_child_from_key (Some k) self').1 = Raise ValueError
       /\ forall key',
            key' ≠ Some k ->
            (get_child_from_key key' self').1 =
            (get_child_from_key key' self).1.
Proof.
  intros Hkeys Hvalues. rewrite remove_child_outcome.
  destruct (list_find _ _) as [[i [k v]] |] eqn:Hfind; [| intros []].
  intros _. cbn [snd].
  apply list_find_Some in Hfind as (Hi & Hv & _). cbn in Hv. subst v.
  apply list_elem_of_lookup_2 in Hi.
  split.
  - unfold children, mbind, method_bind, get_self, mret, method_ret.
    cbn [fst _key_to_child]. f_equal. unfold dict_values.
    apply fmap_filter_agree. intros [k' v'] Hin. cbn. split.
    + intros Hne ->. apply Hne.
      now injection (NoDup_fmap_same snd _ (k', child) (k, child)
                       Hvalues Hin Hi eq_refl).
    + intros Hne ->. apply Hne.
      now injection (NoDup_fmap_same fst _ (k, v') (k, child)
                       Hkeys Hin Hi eq_refl).
  - exists k. rewrite !get_child_from_key_outcome.
    cbn [_key_to_child]. split; [| split].
    + now rewrite (dict_getitem_unique k child _ Hkeys Hi).
    + destruct (dict_getitem_cases k
                  (filter (λ kv, kv.1 ≠ k) (_key_to_child self)))
        as [[_ ->] | (v & Hin & _)]; [reflexivity |].
      apply list_elem_of_filter in Hin as [Hne _]. now destruct Hne.
    + intros key' Hne. rewrite !get_child_from_key_outcome.
      destruct key' as [k' |]; [| reflexivity]. cbn [_key_to_child].
      rewrite dict_getitem_delitem_other by congruence.
      destruct (dict_getitem k' (_key_to_child self)); reflexivity.
Qed.


Lemma run_values_NoDup (c : Call KeyType ChildType) self :
  NoDup (dict_values (_key_to_child self)) ->
  NoDup (dict_values (_key_to_child (run child_eq c self).2)).
Proof.
  assert (Hremove : forall child self,
            NoDup (dict_values (_key_to_child self)) ->
            NoDup (dict_values (_key_to_child (remove_child child self).2))).
  { intros child s Hnd. rewrite remove_child_outcome.
    destruct (list_find _ _) as [[i [k v]] |]; [| exact Hnd].
    cbn. apply filter_fmap_NoDup, Hnd. }
  intros Hnd. destruct c as [key child | child | | key]; cbn [run].
  - rewrite add_child_outcome. destruct key as [k |]; [| exact Hnd].
    destruct (dict_contains k (_key_to_child self)); [exact Hnd |].
    destruct (bool_decide (child ∈ dict_values (_key_to_child self))) eqn:Hin;
      [exact Hnd |].
    destruct (values_contains _ _ _); [exact Hnd |].
    apply bool_decide_eq_false in Hin.
    cbn. unfold dict_values in *. rewrite fmap_app. apply NoDup_app.
    split; [exact Hnd |]. split; [| apply NoDup_singleton].
    intros v Hv Hv'. apply list_elem_of_singleton in Hv' as ->. contradiction.
  - apply Hremove, Hnd.
  - unfold clear, mbind, method_bind, get_self.
    apply (for_each_preserves
             (λ s, NoDup (dict_values (_key_to_child s)))); assumption.
  - rewrite visible_child_key_setter_outcome.
    destruct (from_option _ _ _); exact Hnd.
Qed.



(** X15: once [add_child] has returned, the key and the child are taken:
    adding any child under the same key, or the same child under any key,
    raises [ValueError] and leaves the object as it is. *)
Theorem add_child_again key child self :
  returns (add_child child_eq key child self).1 ->
  let self' := (add_child child_eq key child self).2 in
  (forall child', add_child child_eq key child' self' = (Raise ValueError, self'))
  /\ (forall key', add_child child_eq key' child self' = (Raise ValueError, self')).
Proof.
  intros Hret self'. subst self'.
  destruct (add_child_returns key child self Hret) as (k & -> & Hk & _ & ->).
  split.
  - intros child'. rewrite add_child_outcome. cbn [_key_to_child].
    assert (Hin : dict_contains k (_key_to_child self ++ [(k, child)]) = true).
    { apply dict_contains_true. unfold dict_keys. rewrite fmap_app.
      apply elem_of_app. right. apply list_elem_of_here. }
    now rewrite Hin.
  - intros key'. rewrite add_child_outcome. cbn [_key_to_child].
    destruct key' as [k' |]; [| reflexivity].
    destruct (dict_contains k' _); [reflexivity |].
    rewrite bool_decide_eq_true_2; [reflexivity |].
    unfold dict_values. rewrite fmap_app. apply elem_of_app. right.
    apply list_elem_of_here.
Qed.

(** X16: when no child is stored twice, a child can be removed once: after
    a call of [remove_child] that returns, the same call raises [ValueError]
    and leaves the object as it is. *)
Theorem remove_child_again child self :
  NoDup (dict_values (_key_to_child self)) ->
  returns (remove_child child self).1 ->
  let self' := (remove_child child self).2 in
  remove_child child self' = (Raise ValueError, self').
Proof.
  intros Hvalues Hret self'.
  assert (Hgone : child ∉ dict_values (_key_to_child self')).
  { subst self'. revert Hret. rewrite remove_child_outcome.
    destruct (list_find _ _) as [[i [k v]] |] eqn:Hfind; [| intros []].
    intros _. cbn [snd _key_to_child].
    apply list_find_Some in Hfind as (Hi & Hv & _). cbn in Hv. subst v.
    apply list_elem_of_lookup_2 in Hi. unfold dict_values. intros Hin.
    apply list_elem_of_fmap in Hin as ([k' v'] & Hv' & Hin). cbn in Hv'.
    subst v'. apply list_elem_of_filter in Hin as [Hne Hin]. apply Hne. cbn.
    now injection (NoDup_fmap_same snd _ (k', child) (k, child)
                     Hvalues Hin Hi eq_refl). }
  clearbody self'. rewrite remove_child_outcome.
  destruct (list_find _ _) as [[i [k v]] |] eqn:Hfind; [| reflexivity].
  apply list_find_Some in Hfind as (Hi & Hv & _). cbn in Hv. subst v.
  destruct Hgone. unfold dict_values.
  apply (list_elem_of_fmap_2 snd _ (k, child)).
  eapply list_elem_of_lookup_2, Hi.
Qed.

(** X17: on a mapping with distinct keys, a second [clear] does nothing: it
    returns, fires no event and leaves the object as the first [clear] left
    it; and [remove_child] of any child then raises [ValueError]. *)
Theorem clear_again self :
  NoDup (dict_keys (_key_to_child self)) ->
  let self' := (clear self).2 in
  clear self' = (Ok tt, self')
  /\ forall child, remove_child child self' = (Raise ValueError, self').
Proof.
  intros Hkeys self'.
  assert (Hempty : _key_to_child self' = []).
  { subst self'. apply (clear_outcome child_eq self Hkeys). }
  clearbody self'. split.
  - unfold clear, mbind, method_bind, get_self. now rewrite Hempty.
  - intros child. rewrite remove_child_outcome. now rewrite Hempty.
Qed.

Lemma children_of_events_snoc (log : list (Event KeyType ChildType)) ev :
  children_of_events (log ++ [ev]) =
  match ev with
  | on_child_added _ child => children_of_events log ++ [child]
  | on_child_removed _ child =>
      filter (λ v, v ≠ child) (children_of_events log)
  | on_changed => children_of_events log
  end.
Proof. unfold children_of_events. now rewrite foldl_snoc. Qed.

(** X12: whatever calls were made on a new [StackModel], [children] is what
    the events fired so far say: starting from no child, adding the child of
    each [on_child_added] at the end and taking out the child of each
    [on_child_removed] gives the children of the mapping, in order. *)
Theorem children_follow_events (calls : list (Call KeyType ChildType)) :
  let self := run_calls child_eq calls StackModel_init in
  (children self).1 = Ok (children_of_events (fired self)).
Proof.
  intros self.
  unfold children, mbind, method_bind, get_self, mret, method_ret. cbn [fst].
  f_equal. symmetry.
  set (P := λ s : StackModel KeyType ChildType,
         NoDup (dict_keys (_key_to_child s))
         /\ NoDup (dict_values (_key_to_child s))
         /\ children_of_events (fired s) = dict_values (_key_to_child s)).
  assert (Hremove : forall child s, P s -> P (remove_child child s).2).
  { intros child s (Hkeys & Hvalues & Hlog).
    split; [apply (run_keys_NoDup child_eq (call_remove_child child)), Hkeys |].
    split; [apply (run_values_NoDup (call_remove_child child)), Hvalues |].
    rewrite remove_child_outcome.
    destruct (list_find _ _) as [[i [k v]] |] eqn:Hfind; [| exact Hlog].
    apply list_find_Some in Hfind as (Hi & Hv & _). cbn in Hv. subst v.
    apply list_elem_of_lookup_2 in Hi. cbn [snd fired _key_to_child].
    rewrite app_assoc, children_of_events_snoc.
    assert (Hsame : children_of_events
                      (fired s ++
                       (if decide (_visible_child_key s = Some k)
                        then [on_changed] else [])) =
                    children_of_events (fired s)).
    { destruct (decide (_visible_child_key s = Some k));
        [apply children_of_events_snoc | now rewrite app_nil_r]. }
    rewrite Hsame, Hlog. unfold dict_values. symmetry.
    apply fmap_filter_agree. intros [k' v'] Hin. cbn. split.
    - intros Hne ->. apply Hne.
      now injection (NoDup_fmap_same snd _ (k', child) (k, child)
                       Hvalues Hin Hi eq_refl).
    - intros Hne ->. apply Hne.
      now injection (NoDup_fmap_same fst _ (k, v') (k, child)
                       Hkeys Hin Hi eq_refl). }
  assert (Hrun : forall c s, P s -> P (run child_eq c s).2).
  { intros c s HP. destruct c as [key child | child | | key]; cbn [run].
    - destruct HP as (Hkeys & Hvalues & Hlog).
      split; [apply (run_keys_NoDup child_eq (call_add_child key child)), Hkeys |].
      split; [apply (run_values_NoDup (call_add_child key child)), Hvalues |].
      rewrite add_child_outcome. destruct key as [k |]; [| exact Hlog].
      repeat (match goal with |- context [if ?b then _ else _] => destruct b end;
              [exact Hlog |]).
      cbn [snd fired _key_to_child]. rewrite children_of_events_snoc, Hlog.
      unfold dict_values. now rewrite fmap_app.
    - apply Hremove, HP.
    - unfold clear, mbind, method_bind, get_self.
      apply (for_each_preserves P); assumption.
    - destruct HP as (Hkeys & Hvalues & Hlog).
      rewrite visible_child_key_setter_outcome.
      destruct (from_option _ _ _);
        [| exact (conj Hkeys (conj Hvalues Hlog))].
      split; [exact Hkeys |]. split; [exact Hvalues |].
      cbn [snd fired _key_to_child]. rewrite children_of_events_snoc.
      exact Hlog. }
  assert (HP : P self).
  { subst self. unfold run_calls.
    induction calls as [| c calls IH] using rev_ind.
    - split; [constructor |]. split; [constructor | reflexivity].
    - rewrite foldl_snoc. apply Hrun, IH. }
  apply HP.
Qed.

End StackModelUse.


Lemma get_child_from_key_lookup_witness :
  let self : StackModel nat nat :=
    {| _visible_child_key := Some 2;
       _key_to_child := [(1, 10); (2, 11)];
       fired := [] |} in
  (get_child_from_key (Some 5) self).1 = Raise ValueError
  /\ (get_child_from_key (Some 2) self).1 = Ok (Some 11)
  /\ (get_child_from_key None self).1 = Ok None.
Proof.
  intros self.
  destruct (get_child_from_key_lookup (Some 5) self) as (_ & _ & Hraise & _).
  destruct (get_child_from_key_lookup (Some 2) self)
    as (_ & _ & _ & _ & _ & Hfound).
  destruct (get_child_from_key_lookup None self) as (_ & Hnone & _).
  split; [| split].
  - apply Hraise. exists 5. split; [reflexivity |].
    apply dict_contains_false. reflexivity.
  - apply (Hfound 2 11); [| reflexivity |].
    + apply (bool_decide_unpack _). reflexivity.
    + apply (bool_decide_unpack _). reflexivity.
  - apply Hnone. reflexivity.
Defined.

Lemma add_child_then_lookup_witness :
  let self : StackModel nat nat :=
    {| _visible_child_key := Some 2;
       _key_to_child := [(1, 10); (2, 11)];
       fired := [] |} in
  returns (add_child Nat.eqb (Some 3) 12 self).1
  /\ (get_child_from_key (Some 3) (add_child Nat.eqb (Some 3) 12 self).2).1 =
     Ok (Some 12)
  /\ (children (add_child Nat.eqb (Some 3) 12 self).2).1 = Ok [10; 11; 12].
Proof.
  intros self.
  assert (Hret : returns (add_child Nat.eqb (Some 3) 12 self).1) by exact I.
  destruct (add_child_then_lookup Nat.eqb (Some 3) 12 self Hret)
    as (Hget & _ & Hchildren & _).
  split; [exact Hret |]. split; [exact Hget | exact Hchildren].
Defined.

Lemma add_child_then_remove_child_witness :
  let self : StackModel nat nat :=
    {| _visible_child_key := Some 2;
       _key_to_child := [(1, 10); (2, 11)];
       fired := [] |} in
  visible_child_key_known self
  /\ returns (add_child Nat.eqb (Some 3) 12 self).1
  /\ _key_to_child
       (remove_child 12 (add_child Nat.eqb (Some 3) 12 self).2).2 =
     [(1, 10); (2, 11)]
  /\ _visible_child_key
       (remove_child 12 (add_child Nat.eqb (Some 3) 12 self).2).2 = Some 2.
Proof.
  intros self.
  assert (Hinv : visible_child_key_known self) by reflexivity.
  assert (Hret : returns (add_child Nat.eqb (Some 3) 12 self).1) by exact I.
  destruct (add_child_then_remove_child Nat.eqb (Some 3) 12 self Hinv Hret)
    as (_ & Hd & Hvis).
  split; [exact Hinv |]. split; [exact Hret |]. split; [exact Hd | exact Hvis].
Defined.

Lemma visible_child_key_set_then_get_witness :
  let self : StackModel nat nat :=
    {| _visible_child_key := None;
       _key_to_child := [(1, 10); (2, 11)];
       fired := [] |} in
  returns (visible_child_key_setter (Some 2) self).1
  /\ (visible_child_key (visible_child_key_setter (Some 2) self).2).1 =
     Ok (Some 2)
  /\ (visible_child_key_setter (Some 5) self).2 = self.
Proof.
  intros self.
  assert (Hret : returns (visible_child_key_setter (Some 2) self).1) by exact I.
  destruct (visible_child_key_set_then_get (Some 2) self) as [Hok _].
  destruct (visible_child_key_set_then_get (Some 5) self) as [_ Herr].
  split; [exact Hret |]. split; [apply Hok, Hret |].
  apply Herr. intros H. exact H.
Defined.

Lemma remove_child_then_lookup_witness :
  let self : StackModel nat nat :=
    {| _visible_child_key := Some 2;
       _key_to_child := [(1, 10); (2, 11); (3, 12)];
       fired := [] |} in
  NoDup (dict_keys (_key_to_child self))
  /\ NoDup (dict_values (_key_to_child self))
  /\ returns (remove_child 11 self).1
  /\ (children (remove_child 11 self).2).1 = Ok [10; 12].
Proof.
  intros self.
  assert (Hkeys : NoDup (dict_keys (_key_to_child self)))
    by (apply (bool_decide_unpack _); reflexivity).
  assert (Hvalues : NoDup (dict_values (_key_to_child self)))
    by (apply (bool_decide_unpack _); reflexivity).
  assert (Hret : returns (remove_child 11 self).1) by exact I.
  destruct (remove_child_then_lookup 11 self Hkeys Hvalues Hret)
    as (Hchildren & _).
  split; [exact Hkeys |]. split; [exact Hvalues |]. split; [exact Hret |].
  exact Hchildren.
Defined.


(** * Properties of [get_classes_in_modules] *)

Section misc_facts.

Context {Class : Type}.

Variable issubclass : Class -> Class -> bool.

Variable __module__ : Class -> string.

#[local] Abbreviation get_classes :=
  (get_classes_in_modules issubclass __module__).

(** Induction on an argument, with the hypothesis on every item of an
    iterable. *)
Lemma Modules_nested_ind (P : Modules Class -> Prop) :
  (forall m, P (a_module m)) ->
  (forall vs, Forall P vs -> P (an_iterable vs)) ->
  forall m, P m.
Proof.
  intros Hmodule Hiterable. fix IH 1. intros [m | vs].
  - apply Hmodule.
  - apply Hiterable. induction vs as [| v vs IHvs]; constructor.
    + apply IH.
    + exact IHvs.
Qed.

(** The class reported for one name of [dir(m)], if any. *)
Lemma get_classes_module (m : ModuleType Class) (cls : Class) :
  get_classes (a_module m) cls =
  omap (λ name_attr,
          match name_attr.2 with
          | a_class attr =>
              if issubclass attr cls
                 && bool_decide (__module__ attr = __name__ m)
              then Some attr else None
          | a_other => None
          end) (attrs m).
Proof.
  cbn [get_classes_in_modules].
  assert (Hloop : forall l clses,
            foldl (λ clses name_attr,
                     match name_attr.2 with
                     | a_class attr =>
                         if issubclass attr cls
                            && bool_decide (__module__ attr = __name__ m)
                         then clses ++ [attr] else clses
                     | a_other => clses
                     end) clses l =
            clses ++
            omap (λ name_attr : string * Attr Class,
                    match name_attr.2 with
                    | a_class attr =>
                        if issubclass attr cls
                           && bool_decide (__module__ attr = __name__ m)
                        then Some attr else None
                    | a_other => None
                    end) l).
  { induction l as [| [name attr] l IH]; intros clses.
    - cbn. now rewrite app_nil_r.
    - cbn [foldl snd]. rewrite IH.
      destruct attr as [c |]; [| reflexivity].
      destruct (issubclass c cls && bool_decide (__module__ c = __name__ m))
        eqn:Hc; cbn; rewrite Hc; cbn; [| reflexivity].
      now rewrite <- app_assoc. }
  apply Hloop.
Qed.

Lemma get_classes_iterable (vs : list (Modules Class)) (cls : Class) :
  get_classes (an_iterable vs) cls = vs ≫= (λ v, get_classes v cls).
Proof.
  cbn [get_classes_in_modules].
  assert (Hloop : forall ws clses,
            (fix loop (vs : list (Modules Class)) (clses : list Class)
               : list Class :=
               match vs with
               | [] => clses
               | v :: vs' => loop vs' (clses ++ get_classes v cls)
               end) ws clses =
            clses ++ (ws ≫= (λ v, get_classes v cls))).
  { clear vs. induction ws as [| v ws IH]; intros clses.
    - symmetry. apply app_nil_r.
    - rewrite IH, bind_cons. now rewrite app_assoc. }
  apply Hloop.
Qed.

Lemma modules_of_iterable (vs : list (Modules Class)) :
  modules_of (an_iterable vs) = vs ≫= modules_of.
Proof.
  cbn [modules_of]. induction vs as [| v vs IH]; [reflexivity |].
  now rewrite IH, bind_cons.
Qed.

(** X13: a class is in the result exactly when some module of the argument
    has it under one of its names, the class is a subclass of [cls], and its
    [__module__] is the [__name__] of that module: classes a module only
    imports are left out. *)
Theorem get_classes_in_modules_elem (m : Modules Class) (cls c : Class) :
  c ∈ get_classes m cls <->
  exists (md : ModuleType Class) (name : string),
    md ∈ modules_of m
    /\ (name, a_class c) ∈ attrs md
    /\ issubclass c cls = true
    /\ __module__ c = __name__ md.
Proof.
  induction m as [m | vs IH] using Modules_nested_ind.
  - rewrite get_classes_module, list_elem_of_omap. cbn [modules_of]. split.
    + intros ([name [c' |]] & Hin & Hsome); cbn in Hsome; [| discriminate].
      destruct (issubclass c' cls) eqn:Hsub; [| discriminate].
      destruct (bool_decide (__module__ c' = __name__ m)) eqn:Hmod;
        [| discriminate].
      cbn in Hsome. injection Hsome as ->. apply bool_decide_eq_true in Hmod.
      exists m, name. split; [apply list_elem_of_here | auto].
    + intros (md & name & Hmod & Hin & Hsub & Hname).
      apply list_elem_of_singleton in Hmod as ->.
      exists (name, a_class c). split; [exact Hin |]. cbn.
      rewrite Hsub, bool_decide_eq_true_2 by exact Hname. reflexivity.
  - rewrite get_classes_iterable, modules_of_iterable, list_elem_of_bind.
    rewrite Forall_forall in IH. split.
    + intros (v & Hc & Hv). apply (IH v Hv) in Hc
        as (md & name & Hmod & Hrest).
      exists md, name. split; [| exact Hrest].
      apply list_elem_of_bind. eauto.
    + intros (md & name & Hmod & Hrest).
      apply list_elem_of_bind in Hmod as (v & Hmod & Hv).
      exists v. split; [| exact Hv]. apply (IH v Hv). eauto.
Qed.

(** X14: only the sequence of modules matters, not how the iterables are
    nested: the result on any argument is the result on the list of its
    modules, the result on a list is the concatenation of the results on its
    items, and an empty iterable gives the empty list. *)
Theorem get_classes_in_modules_flat (m : Modules Class) (cls : Class) :
  get_classes m cls =
  get_classes (an_iterable (a_module <$> modules_of m)) cls
  /\ get_classes m cls =
     modules_of m ≫= (λ md, get_classes (a_module md) cls)
  /\ (forall vs1 vs2,
        get_classes (an_iterable (vs1 ++ vs2)) cls =
        get_classes (an_iterable vs1) cls ++ get_classes (an_iterable vs2) cls)
  /\ get_classes (an_iterable []) cls = [].
Proof.
  assert (Hflat : forall m,
            get_classes m cls =
            modules_of m ≫= (λ md, get_classes (a_module md) cls)).
  { clear m. intros m. induction m as [m | vs IH] using Modules_nested_ind.
    - cbn [modules_of]. now rewrite bind_singleton.
    - rewrite get_classes_iterable, modules_of_iterable.
      induction IH as [| v vs Hv _ IHvs]; [reflexivity |].
      rewrite !bind_cons, bind_app, IHvs, Hv. reflexivity. }
  split; [| split; [apply Hflat | split]].
  - rewrite get_classes_iterable, list_fmap_bind. apply Hflat.
  - intros vs1 vs2. rewrite !get_classes_iterable. apply bind_app.
  - reflexivity.
Qed.

End misc_facts.

(** A class bound to two names of its module is reported twice, and a class
    imported from another module is not reported. *)
Example get_classes_in_modules_alias :
  get_classes_in_modules (λ c cls, Nat.leb cls c)
    (λ c, if Nat.even c then "pkg.a" else "pkg.b")
    (an_iterable
       [a_module {| __name__ := "pkg.a";
                    attrs := [("A", a_class 2); ("B", a_class 3);
                              ("alias", a_class 2); ("x", a_other)] |};
        an_iterable
          [a_module {| __name__ := "pkg.b";
                       attrs := [("B", a_class 3); ("Low", a_class 1)] |}]])
    2 =
  [2; 2; 3].
Proof. reflexivity. Qed.

Lemma add_child_again_witness :
  let self : StackModel nat nat :=
    {| _visible_child_key := None; _key_to_child := [(1, 10)]; fired := [] |} in
  returns (add_child Nat.eqb (Some 2) 11 self).1
  /\ (add_child Nat.eqb (Some 2) 12 (add_child Nat.eqb (Some 2) 11 self).2).1 =
     Raise ValueError
  /\ (add_child Nat.eqb (Some 3) 11 (add_child Nat.eqb (Some 2) 11 self).2).1 =
     Raise ValueError.
Proof.
  intros self.
  assert (Hret : returns (add_child Nat.eqb (Some 2) 11 self).1) by exact I.
  destruct (add_child_again Nat.eqb (Some 2) 11 self Hret) as [Hkey Hchild].
  split; [exact Hret |]. now rewrite Hkey, Hchild.
Defined.

Lemma remove_child_again_witness :
  let self : StackModel nat nat :=
    {| _visible_child_key := Some 2;
       _key_to_child := [(1, 10); (2, 11)];
       fired := [] |} in
  NoDup (dict_values (_key_to_child self))
  /\ returns (remove_child 11 self).1
  /\ (remove_child 11 (remove_child 11 self).2).1 = Raise ValueError.
Proof.
  intros self.
  assert (Hvalues : NoDup (dict_values (_key_to_child self)))
    by (apply (bool_decide_unpack _); reflexivity).
  assert (Hret : returns (remove_child 11 self).1) by exact I.
  split; [exact Hvalues |]. split; [exact Hret |].
  now rewrite (remove_child_again 11 self Hvalues Hret).
Defined.

Lemma clear_again_witness :
  let self : StackModel nat nat :=
    {| _visible_child_key := Some 2;
       _key_to_child := [(1, 10); (2, 11)];
       fired := [] |} in
  NoDup (dict_keys (_key_to_child self))
  /\ clear (clear self).2 = (Ok tt, (clear self).2).
Proof.
  intros self.
  assert (Hkeys : NoDup (dict_keys (_key_to_child self)))
    by (apply (bool_decide_unpack _); reflexivity).
  split; [exact Hkeys |]. apply (clear_again Nat.eqb self Hkeys).
Defined.
